(** * hpp-corbaserver: the Python client facade and its smoke-test script

    The repository's Python side consists of two files:

    - [src/hpp/corbaserver/__init__.py], the package facade: it registers the
      package with the ORB runtime, imports the omniidl-generated stub
      modules and binds the client classes of the local submodules;
    - [tests/robot.py], a script that builds a one-joint robot through the
      remote [robot] interface.

    Both files are straight-line module bodies.  They are embedded as
    abstract syntax, statement for statement, and given an executable
    semantics in which everything the Python import system, the ORB and the
    remote servers do is the answer of a runtime to a request.  The runtime
    is a parameter: the theorems hold for every runtime.  The one write
    the import system makes into the globals of the body it serves, binding
    a package's submodule when the package body imports it, is part of the
    semantics of the import statement; any other write that external code
    might make into these globals is outside the model. *)

From Stdlib Require Import ZArith List String Ascii Lia.
From stdpp Require Import base strings gmap list.

Open Scope string_scope.
Open Scope list_scope.

#[local] Set Warnings "-register-all".

(** ** Syntax: the fragment of Python the two files are written in,
    together with the constructs whose absence is claimed ([try], [assert],
    comparisons, keyword arguments). *)

Inductive cmpop : Type := CmpEq | CmpNotEq.

Inductive expr : Type :=
| EName (x : string)                      (* x *)
| EStr (s : string)                       (* "s" *)
| EInt (n : Z)                            (* 0, 1, ... *)
| EFloat (m e : Z)                        (* decimal literal m * 10^e *)
| EList (es : list expr)                  (* [e1, ..., en] *)
| EAttr (e : expr) (a : string)           (* e.a *)
| ECall (f : expr) (args : list expr) (kwargs : list (string * expr))
                                          (* f(e1, ..., en, k1=e1', ...) *)
| ECompare (l : expr) (op : cmpop) (r : expr).   (* l == r, l != r *)

Inductive stmt : Type :=
| SImport (m : string)                    (* import m *)
| SFromImport (level : nat) (m : string) (names : list string)
                                          (* from [.]*m import x1, ..., xn *)
| SAssign (x : string) (e : expr)         (* x = e *)
| SExpr (e : expr)                        (* e *)
| SAssert (e : expr)                      (* assert e *)
| STry (body handler : list stmt).        (* try: body except: handler *)

(** ** The two source files *)

(** [src/hpp/corbaserver/__init__.py] *)
Definition corbaserver_init : list stmt :=
  [ SImport "omniORB";
    SExpr (ECall (EAttr (EName "omniORB") "updateModule")
                 [EStr "hpp.corbaserver"] []);
    SImport "robot_idl";
    SImport "common_idl";
    SImport "obstacle_idl";
    SImport "problem_idl";
    SImport "server_idl_idl";
    SFromImport 1 "client" ["Client"];
    SFromImport 1 "robot" ["Robot"];
    SAssign "Transform" (EAttr (EAttr (EName "common_idl") "_0_hpp") "Transform");
    SFromImport 1 "problem_solver" ["ProblemSolver"; "newProblem"; "loadServerPlugin"];
    SFromImport 1 "benchmark" ["Benchmark"] ].

(** The handle [cl.robot] on which the script issues its remote calls. *)
Definition cl_robot : expr := EAttr (EName "cl") "robot".

(** [tests/robot.py] *)
Definition tests_robot : list stmt :=
  [ SFromImport 0 "hpp.corbaserver" ["Client"];
    SAssign "cl" (ECall (EName "Client") [] []);
    SExpr (ECall (EAttr cl_robot "createRobot") [EStr "test"] []);
    SExpr (ECall (EAttr cl_robot "appendJoint")
                 [EStr "test"; EStr ""; EStr "root_joint"; EStr "planar";
                  EList [EInt 0; EInt 0; EInt 0; EInt 0; EInt 0; EInt 0; EInt 1]] []);
    SExpr (ECall (EAttr cl_robot "createSphere")
                 [EStr "root_body"; EFloat 1 (-3)] []);
    SExpr (ECall (EAttr cl_robot "addObjectToJoint")
                 [EStr "test"; EStr "root_joint"; EStr "root_body";
                  EList [EInt 0; EInt 0; EInt 1; EInt 0; EInt 0; EInt 0; EInt 1]] []);
    SExpr (ECall (EAttr cl_robot "setRobot") [EStr "test"] []);
    SFromImport 0 "hpp.corbaserver.robot" ["Robot"];
    SAssign "robot" (ECall (EName "Robot") [] []) ].

(** ** Syntactic views of a module body *)

(** The name an [import a.b.c] statement binds: the top-level package. *)
Fixpoint top_name (m : string) : string :=
  match m with
  | EmptyString => EmptyString
  | String c r => if Ascii.eqb c "." then EmptyString else String c (top_name r)
  end.

(** An expression and everything nested in it, in source order. *)
Fixpoint subexprs (e : expr) : list expr :=
  e :: match e with
       | EList es => flat_map subexprs es
       | EAttr o _ => subexprs o
       | ECall f args kwargs =>
           subexprs f ++ flat_map subexprs args
           ++ flat_map (fun kw => match kw with (_, x) => subexprs x end) kwargs
       | ECompare l _ r => subexprs l ++ subexprs r
       | _ => []
       end.

(** A statement and the statements nested in it. *)
Fixpoint stmts_of (s : stmt) : list stmt :=
  s :: match s with
       | STry body handler => flat_map stmts_of body ++ flat_map stmts_of handler
       | _ => []
       end.

Definition exprs_of_stmt (s : stmt) : list expr :=
  match s with
  | SAssign _ e | SExpr e | SAssert e => [e]
  | _ => []
  end.

Definition all_stmts (prog : list stmt) : list stmt := flat_map stmts_of prog.

Definition all_exprs (prog : list stmt) : list expr :=
  flat_map subexprs (flat_map exprs_of_stmt (all_stmts prog)).

(** Method calls [recv.meth(args, kwargs)]. *)
Record call_site : Type := CallSite {
  cs_recv : expr;
  cs_meth : string;
  cs_args : list expr;
  cs_kwargs : list (string * expr)
}.

Definition call_site_of (e : expr) : option call_site :=
  match e with
  | ECall (EAttr o m) args kwargs => Some (CallSite o m args kwargs)
  | _ => None
  end.

Definition method_calls (prog : list stmt) : list call_site :=
  omap call_site_of (all_exprs prog).

(** The [i]-th positional argument of the first call of method [meth]. *)
Definition arg_of (prog : list stmt) (meth : string) (i : nat) : option expr :=
  match find (fun c => String.eqb (cs_meth c) meth) (method_calls prog) with
  | Some c => cs_args c !! i
  | None => None
  end.

(** A list display of integer literals, as numbers. *)
Definition int_list (e : expr) : option (list Z) :=
  match e with
  | EList es => mapM (fun x => match x with EInt n => Some n | _ => None end) es
  | _ => None
  end.

Definition config_arg (prog : list stmt) (meth : string) (i : nat)
  : option (list Z) :=
  match arg_of prog meth i with
  | Some e => int_list e
  | None => None
  end.

(** The quaternion part of a configuration: its last four components. *)
Definition last_four (cfg : list Z) : list Z := drop (length cfg - 4) cfg.

Definition norm2 (q : list Z) : Z := foldr (fun x acc => (x * x + acc)%Z) 0%Z q.

(** Imports, as (level, module): level 0 for [import m] and
    [from m import ...], level 1 for [from .m import ...]. *)
Definition imports_of_stmt (s : stmt) : list (nat * string) :=
  match s with
  | SImport m => [(0, m)]
  | SFromImport level m _ => [(level, m)]
  | _ => []
  end.

Definition imports (prog : list stmt) : list (nat * string) :=
  flat_map imports_of_stmt (all_stmts prog).

Definition has_suffix (suf s : string) : bool :=
  Nat.leb (String.length suf) (String.length s)
  && String.eqb (substring (String.length s - String.length suf)
                           (String.length suf) s) suf.

(** omniidl names the Python stub generated from [x.idl] [x_idl]. *)
Definition is_idl_stub (m : string) : bool := has_suffix "_idl" m.

Definition stub_imports (prog : list stmt) : list string :=
  filter (fun m => is_idl_stub m = true) (map snd (imports prog)).



(** The names a statement binds by naming them: the targets written in it. *)
Definition bound_by_stmt (s : stmt) : list string :=
  match s with
  | SImport m => [top_name m]
  | SFromImport _ _ names => names
  | SAssign x _ => [x]
  | _ => []
  end.


(** The name under which [from .m import ...], executed by the body of a
    package, leaves a submodule bound in the package: the first component
    of [m].  Imports of another level, and [from . import ...], leave
    none. *)
Definition submodule_name (level : nat) (m : string) : option string :=
  match level with
  | 1 => if String.eqb m "" then None else Some (top_name m)
  | _ => None
  end.

(** All the names the execution of a statement can write. *)
Definition written_by_stmt (s : stmt) : list string :=
  match s with
  | SFromImport level m names =>
      match submodule_name level m with
      | Some x => x :: names
      | None => names
      end
  | _ => bound_by_stmt s
  end.

Definition written_names (prog : list stmt) : list string :=
  flat_map written_by_stmt (all_stmts prog).

Definition is_try (s : stmt) : bool :=
  match s with STry _ _ => true | _ => false end.

Definition is_assert (s : stmt) : bool :=
  match s with SAssert _ => true | _ => false end.

Definition is_compare (e : expr) : bool :=
  match e with ECompare _ _ _ => true | _ => false end.

Definition has_try (prog : list stmt) : bool := existsb is_try (all_stmts prog).
Definition has_assert (prog : list stmt) : bool := existsb is_assert (all_stmts prog).
Definition has_compare (prog : list stmt) : bool := existsb is_compare (all_exprs prog).

(** ** Values, requests to the runtime, and events *)

(** Modules, classes, proxies and bound objects are opaque: a [VRef] is the
    identity of such an object. *)
Inductive value : Type :=
| VNone
| VBool (b : bool)
| VInt (n : Z)
| VFloat (m e : Z)
| VStr (s : string)
| VList (vs : list value)
| VRef (a : nat).

(** What the module body asks of its environment.  [RInvoke] is a method
    call [recv.meth(args)]; [RCall] is a call of a callable that is not
    reached through an attribute, such as a class named directly. *)
Inductive request : Type :=
| RImport (level : nat) (m : string) (fromlist : list string)
| RImportFrom (module : value) (name : string)
| RGetAttr (obj : value) (a : string)
| RCall (f : value) (args : list value) (kwargs : list (string * value))
| RInvoke (recv : value) (meth : string)
          (args : list value) (kwargs : list (string * value))
| RCompare (op : cmpop) (l r : value).

Inductive exn : Type :=
| NameError (x : string)
| AssertionError
| Raised (obj : value).

Inductive result (A : Type) : Type :=
| Ok (a : A)
| Raise (e : exn).
Arguments Ok {A} a.
Arguments Raise {A} e.

Definition event : Type := request * result value.

(** The double nearest to the decimal m * 10^e is zero: [m] is zero, or the
    number is so small that it rounds to zero, which is the case up to and
    including 2^-1075, half the least positive double. *)
Definition float_is_zero (m e : Z) : bool :=
  if Z.leb 0 e then Z.eqb m 0
  else Z.leb (Z.abs m * 2 ^ 1075) (10 ^ (- e)).

(** Truth value used by [assert]; opaque objects are true. *)
Definition truthy (v : value) : bool :=
  match v with
  | VNone => false
  | VBool b => b
  | VInt n => negb (Z.eqb n 0)
  | VFloat m e => negb (float_is_zero m e)
  | VStr s => negb (String.eqb s "")
  | VList vs => match vs with [] => false | _ => true end
  | VRef _ => true
  end.

(** ** Semantics *)

Section Interp.
Context {W : Type}.

(** The runtime: the import system, attribute lookup on opaque objects,
    constructors and remote operations.  It has its own state [W] and
    answers each request with a value or an exception. *)
Variable R : W -> request -> W * result value.

Record config : Type := Config { world : W; globals : gmap string value }.

Definition M (A : Type) : Type := config -> list event * config * result A.

Definition ret {A} (a : A) : M A := fun c => ([], c, Ok a).

Definition raise {A} (e : exn) : M A := fun c => ([], c, Raise e).

Definition bind {A B} (m : M A) (k : A -> M B) : M B := fun c =>
  match m c with
  | (t1, c1, Ok a) =>
      match k a c1 with (t2, c2, r) => (t1 ++ t2, c2, r) end
  | (t1, c1, Raise e) => (t1, c1, Raise e)
  end.

(** [try: m except: h]: an exception of [m] is swallowed and [h] runs. *)
Definition catch {A} (m h : M A) : M A := fun c =>
  match m c with
  | (t1, c1, Ok a) => (t1, c1, Ok a)
  | (t1, c1, Raise _) =>
      match h c1 with (t2, c2, r) => (t1 ++ t2, c2, r) end
  end.

Definition ask (q : request) : M value := fun c =>
  match R (world c) q with
  | (w', r) => ([(q, r)], Config w' (globals c), r)
  end.

Definition load (x : string) : M value := fun c =>
  match globals c !! x with
  | Some v => ([], c, Ok v)
  | None => ([], c, Raise (NameError x))
  end.

Definition store (x : string) (v : value) : M unit := fun c =>
  ([], Config (world c) (<[x:=v]> (globals c)), Ok tt).

Definition traverse {A B} (f : A -> M B) : list A -> M (list B) :=
  fix go l :=
    match l with
    | [] => ret []
    | a :: l' => bind (f a) (fun b => bind (go l') (fun bs => ret (b :: bs)))
    end.

Definition for_each {A} (f : A -> M unit) : list A -> M unit :=
  fix go l :=
    match l with
    | [] => ret tt
    | a :: l' => bind (f a) (fun _ => go l')
    end.

(** Expressions: operands left to right, positional arguments before
    keyword arguments. *)
Fixpoint eval (e : expr) : M value :=
  match e with
  | EName x => load x
  | EStr s => ret (VStr s)
  | EInt n => ret (VInt n)
  | EFloat m x => ret (VFloat m x)
  | EList es => bind (traverse eval es) (fun vs => ret (VList vs))
  | EAttr o a => bind (eval o) (fun v => ask (RGetAttr v a))
  | ECall f args kwargs =>
      let eval_kw := fun kw : string * expr =>
        match kw with (k, x) => bind (eval x) (fun v => ret (k, v)) end in
      match f with
      | EAttr o meth =>
          bind (eval o) (fun recv =>
          bind (traverse eval args) (fun vs =>
          bind (traverse eval_kw kwargs) (fun kvs =>
          ask (RInvoke recv meth vs kvs))))
      | _ =>
          bind (eval f) (fun fv =>
          bind (traverse eval args) (fun vs =>
          bind (traverse eval_kw kwargs) (fun kvs =>
          ask (RCall fv vs kvs))))
      end
  | ECompare l op r =>
      bind (eval l) (fun a => bind (eval r) (fun b => ask (RCompare op a b)))
  end.

(** What a successful [from .m import ...] leaves in the globals besides
    the names it lists.  The body executed is that of a package (or a
    script, where the runtime refuses relative imports), so the package's
    namespace is these globals, and the import system binds the submodule in
    it: for an undotted [m] the module [mv] just imported, under the name
    [m]; for [from .a.b import ...] the package [a], which the runtime is
    asked for. *)
Definition bind_submodule (level : nat) (m : string) (mv : value) : M unit :=
  match submodule_name level m with
  | Some x =>
      if String.eqb x m then store x mv
      else bind (ask (RImport 1 x [])) (store x)
  | None => ret tt
  end.

(** Statements.  An import is a request with the level written in the
    source (0 for [import m]); how the runtime resolves the name, for
    instance by trying the enclosing package first, is its own business. *)
Fixpoint exec (s : stmt) : M unit :=
  match s with
  | SImport m =>
      bind (ask (RImport 0 m [])) (fun v => store (top_name m) v)
  | SFromImport level m names =>
      bind (ask (RImport level m names)) (fun mv =>
      bind (bind_submodule level m mv) (fun _ =>
      for_each (fun x => bind (ask (RImportFrom mv x)) (store x)) names))
  | SAssign x e => bind (eval e) (store x)
  | SExpr e => bind (eval e) (fun _ => ret tt)
  | SAssert e =>
      bind (eval e) (fun v => if truthy v then ret tt else raise AssertionError)
  | STry body handler => catch (for_each exec body) (for_each exec handler)
  end.

(** Executing a module body in a world [w] with initial globals [ns]. *)
Definition run (prog : list stmt) (w : W) (ns : gmap string value)
  : list event * config * result unit :=
  for_each exec prog (Config w ns).

Definition trace_of {A} (x : list event * config * result A) : list event :=
  x.1.1.
Definition globals_of {A} (x : list event * config * result A)
  : gmap string value := globals x.1.2.
Definition outcome_of {A} (x : list event * config * result A) : result A :=
  x.2.

End Interp.

(** ** Reference runtimes, used to exercise the theorems *)

(** Every request succeeds and returns a fresh opaque object. *)
Definition fresh (n : nat) (q : request) : nat * result value :=
  (S n, Ok (VRef n)).

(** As [fresh], but the [k]-th request raises. *)
Definition failing (k : nat) (n : nat) (q : request) : nat * result value :=
  if Nat.eqb n k then (S n, Raise (Raised (VRef n))) else (S n, Ok (VRef n)).

(** ** Vocabulary of the properties *)

(** The stub modules omniidl generates from the server's IDL files. *)
Definition idl_stubs : list string :=
  ["robot_idl"; "common_idl"; "obstacle_idl"; "problem_idl"; "server_idl_idl"].

(** The operations of the remote [robot] interface the test script uses. *)
Definition remote_methods : list string :=
  ["createRobot"; "appendJoint"; "createSphere"; "addObjectToJoint"; "setRobot"].


(** The method a request invokes, if it is a method call. *)
Definition invoked (ev : event) : option string :=
  match ev.1 with
  | RInvoke _ m _ _ => Some m
  | _ => None
  end.

(** The methods invoked along a trace, in order. *)
Definition invocations (t : list event) : list string := omap invoked t.

(** The successful call [omniORB.updateModule("hpp.corbaserver")]. *)
Definition is_update (ev : event) : bool :=
  match ev with
  | (RInvoke _ meth [VStr name] [], Ok _) =>
      String.eqb meth "updateModule" && String.eqb name "hpp.corbaserver"
  | _ => false
  end.

(** The import of one of the generated stub modules. *)
Definition is_stub_import (q : request) : bool :=
  match q with
  | RImport 0 m [] => existsb (String.eqb m) idl_stubs
  | _ => false
  end.

(** The steps of a [from .m import x]: importing the local submodule, and
    fetching a name from a module. *)
Definition is_from_import (q : request) : bool :=
  match q with
  | RImport (S _) _ _ => true
  | RImportFrom _ _ => true
  | _ => false
  end.

(** [e] is a method call [recv.meth(...)]. *)
Definition is_method_call (e : expr) : bool :=
  match call_site_of e with Some _ => true | None => false end.

(** No method call anywhere in [e]. *)
Definition call_free (e : expr) : bool :=
  forallb (fun x => negb (is_method_call x)) (subexprs e).

(** A statement discards the results of its method calls when it is a bare
    call [recv.meth(args)] whose receiver and arguments contain no method
    call, or when it contains no method call at all. *)
Definition discards_results (s : stmt) : bool :=
  match s with
  | SExpr (ECall (EAttr o _) args kwargs) =>
      call_free o && forallb call_free args
      && forallb (fun kw : string * expr => call_free kw.2) kwargs
  | _ => forallb call_free (exprs_of_stmt s)
  end.

(** The run [x] preceded by the event [ev]. *)
Definition prepend {W A} (ev : event) (x : list event * @config W * result A)
  : list event * @config W * result A :=
  match x with (t, c, r) => (ev :: t, c, r) end.

(** A run is fail-fast when an exception answered by the runtime ends it:
    the raising request is the last event and the run's outcome is that
    very exception. *)
Definition fail_fast {W A} (x : list event * @config W * result A) : Prop :=
  forall pre q e post,
    trace_of x = pre ++ (q, Raise e) :: post ->
    post = [] /\ outcome_of x = Raise e.

(** Two answers to the request [q] that differ at most in the value a
    successful method call returns. *)
Definition same_but_returns (q : request) (r1 r2 : result value) : Prop :=
  match q with
  | RInvoke _ _ _ _ =>
      match r1, r2 with
      | Ok _, Ok _ => True
      | Raise e1, Raise e2 => e1 = e2
      | _, _ => False
      end
  | _ => r1 = r2
  end.

(** [R2] behaves as [R1] on related worlds, up to the values returned by
    successful method calls. *)
Definition similar {W1 W2} (sim : W1 -> W2 -> Prop)
    (R1 : W1 -> request -> W1 * result value)
    (R2 : W2 -> request -> W2 * result value) : Prop :=
  forall w1 w2 q, sim w1 w2 ->
    sim (R1 w1 q).1 (R2 w2 q).1 /\ same_but_returns q (R1 w1 q).2 (R2 w2 q).2.

(** [R] with the value of every successful method call replaced by [f]. *)
Definition override {W} (f : value -> value)
    (R : W -> request -> W * result value) (w : W) (q : request)
  : W * result value :=
  match q, R w q with
  | RInvoke _ _ _ _, (w', Ok v) => (w', Ok (f v))
  | _, x => x
  end.

(** The run under [failing 6], in which the second remote call,
    appendJoint, raises: the events that precede the failing request. *)
Definition before_appendJoint : list event :=
  [ (RImport 0 "hpp.corbaserver" ["Client"], Ok (VRef 0));
    (RImportFrom (VRef 0) "Client", Ok (VRef 1));
    (RCall (VRef 1) [] [], Ok (VRef 2));
    (RGetAttr (VRef 2) "robot", Ok (VRef 3));
    (RInvoke (VRef 3) "createRobot" [VStr "test"] [], Ok (VRef 4));
    (RGetAttr (VRef 2) "robot", Ok (VRef 5)) ].

(** The failing request of that run. *)
Definition appendJoint_request : request :=
  RInvoke (VRef 5) "appendJoint"
    [VStr "test"; VStr ""; VStr "root_joint"; VStr "planar";
     VList [VInt 0; VInt 0; VInt 0; VInt 0; VInt 0; VInt 0; VInt 1]] [].

(** ** Vocabulary of the further properties *)

(** The computation [m] does not change the binding of [x]. *)
Definition keeps {W A} (x : string) (m : @M W A) : Prop :=
  forall c, globals (m c).1.2 !! x = globals c !! x.

(** The names the test script binds. *)
Definition script_names : list string := ["Client"; "cl"; "Robot"; "robot"].

(** The script's own request to import hpp.corbaserver.robot, made by its
    statement [from hpp.corbaserver.robot import Robot].  (The module may
    have been loaded before, by the facade; that is not a request of the
    script.) *)
Definition is_robot_import (q : request) : bool :=
  match q with
  | RImport 0 m _ => String.eqb m "hpp.corbaserver.robot"
  | _ => false
  end.

(** The request of the event was answered with a value. *)
Definition is_ok (ev : event) : bool :=
  match ev.2 with Ok _ => true | Raise _ => false end.

(** The import of the package hpp.corbaserver as Python performs it on top
    of a runtime [R] for everything else.  The first [import] of the package
    executes the body of its [__init__.py], the facade, in the module
    globals [ns0]: if the body ends normally the module object [VRef pkg] is
    cached together with its globals, and if it raises, the import raises
    that exception and nothing is cached.  A later import returns the cached
    module without executing the body again.  Fetching a name from the
    cached module reads the module's globals; a name that is not there, and
    every other request, is left to [R]. *)
Definition linked {W} (R : W -> request -> W * result value) (pkg : nat)
    (ns0 : gmap string value)
    (st : W * option (gmap string value)) (q : request)
  : (W * option (gmap string value)) * result value :=
  let delegate := match R st.1 q with (w', r) => ((w', st.2), r) end in
  match q with
  | RImport 0 m _ =>
      if String.eqb m "hpp.corbaserver" then
        match st.2 with
        | Some _ => (st, Ok (VRef pkg))
        | None =>
            match run R corbaserver_init st.1 ns0 with
            | (_, c, Ok _) => ((world c, Some (globals c)), Ok (VRef pkg))
            | (_, c, Raise e) => ((world c, None), Raise e)
            end
        end
      else delegate
  | RImportFrom (VRef a) x =>
      match st.2 with
      | Some g =>
          if Nat.eqb a pkg then
            match g !! x with
            | Some v => (st, Ok v)
            | None => delegate
            end
          else delegate
      | None => delegate
      end
  | _ => delegate
  end.



(** * Properties *)

(** ** Small checks of the definitions *)

Example top_name_dotted : top_name "hpp.corbaserver" = "hpp".
Proof. reflexivity. Qed.

Example stub_names :
  map is_idl_stub ["server_idl_idl"; "omniORB"; "idl"; "robot"]
  = [true; false; false; false].
Proof. reflexivity. Qed.

Example last_four_example : last_four [7; 6; 5; 4; 3; 2; 1]%Z = [4; 3; 2; 1]%Z.
Proof. reflexivity. Qed.

Example norm2_example : norm2 [1; 2; 0; 2]%Z = 9%Z.
Proof. reflexivity. Qed.

(** 0.001 and 5e-324 are true, 0.0 and the underflowing 1e-400 are false. *)
Example float_truth :
  map truthy [VFloat 1 (-3); VFloat 5 (-324); VFloat 0 (-1); VFloat 1 (-400)]
  = [true; true; false; false].
Proof. vm_compute. reflexivity. Qed.

(** [from .client import Client] in a package body binds [client] too;
    [from hpp.corbaserver import Client] binds [Client] only. *)
Example relative_import_binds_submodule :
  map (fun x => globals_of (run fresh [SFromImport 1 "client" ["Client"]] 0 ∅) !! x)
      ["client"; "Client"] = [Some (VRef 0); Some (VRef 1)]
  /\ map (fun x => globals_of
                     (run fresh [SFromImport 0 "hpp.corbaserver" ["Client"]] 0 ∅) !! x)
         ["hpp"; "hpp.corbaserver"; "Client"] = [None; None; Some (VRef 1)].
Proof. split; vm_compute; reflexivity. Qed.

(** ** The stub imports of the facade *)

(** C3: the facade imports exactly five generated stub modules, robot_idl,
    common_idl, obstacle_idl, problem_idl and server_idl_idl; every other
    module it imports is the ORB runtime [omniORB] or a local submodule. *)
Theorem C3_stub_imports :
  stub_imports corbaserver_init = idl_stubs
  /\ length (stub_imports corbaserver_init) = 5
  /\ (forall i, i ∈ imports corbaserver_init ->
        i.2 ∈ idl_stubs \/ i = (0, "omniORB") \/ i.1 = 1).
Proof.
  split; [reflexivity|]. split; [reflexivity|].
  intros i Hi.
  change (imports corbaserver_init) with
    [(0, "omniORB"); (0, "robot_idl"); (0, "common_idl");
     (0, "obstacle_idl"); (0, "problem_idl"); (0, "server_idl_idl");
     (1, "client"); (1, "robot"); (1, "problem_solver"); (1, "benchmark")] in Hi.
  unfold idl_stubs.
  repeat (apply elem_of_cons in Hi as [->|Hi]; [simpl; set_solver|]).
  inversion Hi.
Qed.

(** ** The remote calls of the test script, as written *)

(** C7: the method calls of the test script are the five remote calls on
    [cl.robot], and none of them passes a keyword argument: all arguments
    are positional. *)
Theorem C7_positional_arguments :
  map cs_meth (method_calls tests_robot) = remote_methods
  /\ Forall (fun c => cs_recv c = cl_robot) (method_calls tests_robot)
  /\ Forall (fun c => cs_kwargs c = []) (method_calls tests_robot)
  /\ map (fun c => length (cs_args c)) (method_calls tests_robot) = [1; 5; 2; 4; 1].
Proof.
  split; [reflexivity|].
  split; [|split; [|reflexivity]]; cbn; repeat constructor.
Qed.

(** C9: each entity name is the same literal wherever it is passed: the
    robot name is "test" in createRobot, appendJoint, addObjectToJoint and
    setRobot; the joint name is "root_joint" in appendJoint and
    addObjectToJoint; the body name is "root_body" in createSphere and
    addObjectToJoint. *)
Theorem C9_names_consistent :
  arg_of tests_robot "createRobot" 0 = Some (EStr "test")
  /\ arg_of tests_robot "setRobot" 0 = arg_of tests_robot "createRobot" 0
  /\ arg_of tests_robot "appendJoint" 0 = arg_of tests_robot "createRobot" 0
  /\ arg_of tests_robot "addObjectToJoint" 0 = arg_of tests_robot "createRobot" 0
  /\ arg_of tests_robot "appendJoint" 2 = Some (EStr "root_joint")
  /\ arg_of tests_robot "addObjectToJoint" 1 = arg_of tests_robot "appendJoint" 2
  /\ arg_of tests_robot "createSphere" 0 = Some (EStr "root_body")
  /\ arg_of tests_robot "addObjectToJoint" 2 = arg_of tests_robot "createSphere" 0.
Proof. repeat split; reflexivity. Qed.

(** C10: the two configuration arguments (fifth argument of appendJoint,
    fourth of addObjectToJoint) are lists of seven integer literals whose
    last four components have squares summing to 1. *)
Theorem C10_unit_quaternions :
  exists c1 c2 : list Z,
    config_arg tests_robot "appendJoint" 4 = Some c1
    /\ config_arg tests_robot "addObjectToJoint" 3 = Some c2
    /\ length c1 = 7 /\ length c2 = 7
    /\ length (last_four c1) = 4 /\ length (last_four c2) = 4
    /\ norm2 (last_four c1) = 1%Z
    /\ norm2 (last_four c2) = 1%Z.
Proof.
  exists [0; 0; 0; 0; 0; 0; 1]%Z, [0; 0; 1; 0; 0; 0; 1]%Z.
  repeat split; reflexivity.
Qed.

(** ** Equations of the semantics

    The interpreter is reasoned about at the head of a run: nested [bind]s
    are reassociated until the next primitive is exposed, and the primitive
    is then resolved by one of the equations below. *)

Section Laws.
Context {W : Type} (R : W -> request -> W * result value).

Lemma bind_assoc {A B C} (m : @M W A) (k : A -> @M W B) (h : B -> @M W C) c :
  bind (bind m k) h c = bind m (fun a => bind (k a) h) c.
Proof.
  unfold bind. destruct (m c) as [[t1 c1] [a|e]]; [|reflexivity].
  destruct (k a c1) as [[t2 c2] [b|e]]; [|reflexivity].
  destruct (h b c2) as [[t3 c3] r]. by rewrite app_assoc.
Qed.

Lemma bind_ret {A B} (a : A) (k : A -> @M W B) (c : @config W) :
  bind (ret a) k c = k a c.
Proof. unfold bind, ret. by destruct (k a c) as [[t2 c2] r]. Qed.

Lemma bind_raise {A B} (e : exn) (k : A -> @M W B) (c : @config W) :
  bind (raise e) k c = ([], c, Raise e).
Proof. reflexivity. Qed.

Lemma bind_store {B} x v (k : unit -> @M W B) (c : @config W) :
  bind (store x v) k c = k tt (Config (world c) (<[x:=v]> (globals c))).
Proof. unfold bind, store. by destruct (k _ _) as [[t2 c2] r]. Qed.

Lemma bind_load {B} x (k : value -> @M W B) (c : @config W) :
  bind (load x) k c =
  match globals c !! x with
  | Some v => k v c
  | None => ([], c, Raise (NameError x))
  end.
Proof.
  unfold bind, load. destruct (globals c !! x); [|reflexivity].
  by destruct (k _ _) as [[t2 c2] r].
Qed.

Lemma bind_ask {B} q (k : value -> @M W B) (c : @config W) :
  bind (ask R q) k c =
  match R (world c) q with
  | (w', Ok v) => prepend (q, Ok v) (k v (Config w' (globals c)))
  | (w', Raise e) => ([(q, Raise e)], Config w' (globals c), Raise e)
  end.
Proof.
  unfold bind, ask. destruct (R (world c) q) as [w' [v|e]]; [|reflexivity].
  by destruct (k _ _) as [[t2 c2] r].
Qed.

Lemma ask_alone q (c : @config W) :
  ask R q c = bind (ask R q) ret c.
Proof.
  unfold bind, ask, ret. by destruct (R (world c) q) as [w' [v|e]].
Qed.

Lemma for_each_nil {A} (f : A -> @M W unit) (c : @config W) :
  for_each f [] c = ([], c, Ok tt).
Proof. reflexivity. Qed.

Lemma for_each_cons {A} (f : A -> @M W unit) a l (c : @config W) :
  for_each f (a :: l) c = bind (f a) (fun _ => for_each f l) c.
Proof. reflexivity. Qed.

Lemma bind_for_each_nil {A B} (f : A -> @M W unit) (k : unit -> @M W B) c :
  bind (for_each f []) k c = k tt c.
Proof. apply bind_ret. Qed.

Lemma bind_for_each_cons {A B} (f : A -> @M W unit) a l (k : unit -> @M W B) c :
  bind (for_each f (a :: l)) k c
  = bind (f a) (fun _ => bind (for_each f l) k) c.
Proof. apply (bind_assoc (f a) (fun _ => for_each f l) k). Qed.

Lemma run_eq prog w ns : run R prog w ns = for_each (exec R) prog (Config w ns).
Proof. reflexivity. Qed.
End Laws.

(** ** Symbolic execution of a straight-line module body

    [sym_step] advances the run at the head of the goal by one primitive;
    a request to the runtime [R] splits the goal on its answer. *)

Ltac sym_head :=
  lazymatch goal with
  | |- context [ bind ?m ?k ?c ] =>
      lazymatch m with
      | bind ?m' ?k' => rewrite (bind_assoc m' k' k c)
      | ret ?a => rewrite (bind_ret a k c)
      | raise ?e => rewrite (bind_raise e k c)
      | store ?x ?v => rewrite (bind_store x v k c)
      | load ?x => rewrite (bind_load x k c)
      | ask ?R ?q => rewrite (bind_ask R q k c)
      | for_each ?f (?a :: ?l) => rewrite (bind_for_each_cons f a l k c)
      | for_each ?f [] => rewrite (bind_for_each_nil f k c)
      | _ => progress cbn [exec eval traverse bind_submodule submodule_name
                           top_name String.eqb Ascii.eqb Bool.eqb truthy]
      end
  | |- context [ for_each ?f (?a :: ?l) ?c ] => rewrite (for_each_cons f a l c)
  | |- context [ for_each ?f [] ?c ] => rewrite (for_each_nil f c)
  | |- context [ ask ?R ?q ?c ] => rewrite (ask_alone R q c)
  | |- context [ <[?x:=_]> _ !! ?y ] =>
      first [ rewrite lookup_insert_eq
            | rewrite lookup_insert_ne by discriminate ]
  end;
  cbn [world globals]; cbv beta.

Ltac sym_answer R :=
  lazymatch goal with
  | |- context [ R ?w ?q ] =>
      let e := fresh "e" in
      let v := fresh "v" in
      let w' := fresh "w" in
      destruct (R w q) as [w' [v|e]]
  end;
  cbv beta iota.

Ltac sym_step R := first [ sym_head | sym_answer R ].

(** Case analysis on all runs of the body at the head of the goal: one goal
    per point at which the runtime may raise, and one for the normal run. *)
Ltac sym_exec R :=
  lazymatch goal with
  | |- context [ run R ?prog ?w ?ns ] =>
      let E := fresh "E" in
      destruct (run R prog w ns) as [[? ?] ?] eqn:E;
      revert E; rewrite run_eq; repeat sym_step R;
      cbn [prepend]; intros [= <- <- <-];
      cbn [trace_of outcome_of globals_of fst snd globals]
  end.

(** ** The trace of the test script *)

(** C2: a run of the test script that ends normally has exactly this trace:
    Client is imported and constructed first, the five remote operations
    createRobot, appendJoint, createSphere, addObjectToJoint, setRobot are
    invoked in that order, each on the object [cl.robot] yields for that
    client, and the Robot facade class is imported and constructed after
    the last remote call. *)
Theorem C2_trace {W} (R : W -> request -> W * result value) w ns :
  outcome_of (run R tests_robot w ns) = Ok tt ->
  invocations (trace_of (run R tests_robot w ns)) = remote_methods
  /\ exists m0 vClient cl r1 x1 r2 x2 r3 x3 r4 x4 r5 x5 m1 vRobot robot,
      trace_of (run R tests_robot w ns) =
          [ (RImport 0 "hpp.corbaserver" ["Client"], Ok m0);
            (RImportFrom m0 "Client", Ok vClient);
            (RCall vClient [] [], Ok cl);
            (RGetAttr cl "robot", Ok r1);
            (RInvoke r1 "createRobot" [VStr "test"] [], Ok x1);
            (RGetAttr cl "robot", Ok r2);
            (RInvoke r2 "appendJoint"
               [VStr "test"; VStr ""; VStr "root_joint"; VStr "planar";
                VList [VInt 0; VInt 0; VInt 0; VInt 0; VInt 0; VInt 0; VInt 1]] [],
             Ok x2);
            (RGetAttr cl "robot", Ok r3);
            (RInvoke r3 "createSphere" [VStr "root_body"; VFloat 1 (-3)] [], Ok x3);
            (RGetAttr cl "robot", Ok r4);
            (RInvoke r4 "addObjectToJoint"
               [VStr "test"; VStr "root_joint"; VStr "root_body";
                VList [VInt 0; VInt 0; VInt 1; VInt 0; VInt 0; VInt 0; VInt 1]] [],
             Ok x4);
            (RGetAttr cl "robot", Ok r5);
            (RInvoke r5 "setRobot" [VStr "test"] [], Ok x5);
            (RImport 0 "hpp.corbaserver.robot" ["Robot"], Ok m1);
            (RImportFrom m1 "Robot", Ok vRobot);
            (RCall vRobot [] [], Ok robot) ].
Proof.
  unfold tests_robot, cl_robot. sym_exec R; intros H; try discriminate H.
  split; [reflexivity|]. repeat eexists.
Qed.

Lemma C2_trace_witness :
  outcome_of (run fresh tests_robot 0 ∅) = Ok tt
  /\ invocations (trace_of (run fresh tests_robot 0 ∅)) = remote_methods.
Proof.
  split; [vm_compute; reflexivity|].
  apply (C2_trace fresh 0 ∅). vm_compute. reflexivity.
Defined.

(** Whatever the runtime answers, the remote operations invoked by the test
    script are an initial part of that sequence. *)
Lemma tests_robot_invocations_prefix {W} (R : W -> request -> W * result value) w ns :
  invocations (trace_of (run R tests_robot w ns)) `prefix_of` remote_methods.
Proof.
  unfold tests_robot, cl_robot. sym_exec R;
    cbv [invocations invoked omap list_omap fst remote_methods];
    solve [ eexists; reflexivity ].
Qed.

(** ** Exceptions are not handled *)

(** Induction on expressions that reaches the elements of list displays and
    call arguments, and the receiver of a method call. *)
Section ExprInd.
Variable P : expr -> Prop.
Hypothesis HName : forall x, P (EName x).
Hypothesis HStr : forall s, P (EStr s).
Hypothesis HInt : forall n, P (EInt n).
Hypothesis HFloat : forall m e, P (EFloat m e).
Hypothesis HList : forall es, Forall P es -> P (EList es).
Hypothesis HAttr : forall o a, P o -> P (EAttr o a).
Hypothesis HCall : forall f args kwargs,
  P f -> match f with EAttr o _ => P o | _ => True end ->
  Forall P args -> Forall (fun kw => P kw.2) kwargs ->
  P (ECall f args kwargs).
Hypothesis HCompare : forall l op r, P l -> P r -> P (ECompare l op r).

Fixpoint expr_ind_nested (e : expr) : P e :=
  let all := fix all (es : list expr) : Forall P es :=
    match es with
    | [] => @List.Forall_nil _ P
    | x :: es' => @List.Forall_cons _ P x es' (expr_ind_nested x) (all es')
    end in
  let all_kw := fix all_kw (kws : list (string * expr))
    : Forall (fun kw => P kw.2) kws :=
    match kws with
    | [] => @List.Forall_nil _ _
    | kw :: kws' =>
        @List.Forall_cons _ (fun kw => P kw.2) kw kws'
          (match kw return P kw.2 with (_, x) => expr_ind_nested x end)
          (all_kw kws')
    end in
  match e with
  | EName x => HName x
  | EStr s => HStr s
  | EInt n => HInt n
  | EFloat m x => HFloat m x
  | EList es => HList es (all es)
  | EAttr o a => HAttr o a (expr_ind_nested o)
  | ECall f args kwargs =>
      HCall f args kwargs (expr_ind_nested f)
        (match f return match f with EAttr o _ => P o | _ => True end with
         | EAttr o _ => expr_ind_nested o
         | _ => I
         end)
        (all args) (all_kw kwargs)
  | ECompare l op r => HCompare l op r (expr_ind_nested l) (expr_ind_nested r)
  end.
End ExprInd.

Section FailFast.
Context {W : Type} (R : W -> request -> W * result value).

Lemma fail_fast_silent {A} (c : @config W) (r : result A) :
  fail_fast ([], c, r).
Proof. intros pre q e post H. destruct pre; discriminate H. Qed.

Lemma fail_fast_ask q c : fail_fast (ask R q c).
Proof.
  unfold ask. destruct (R (world c) q) as [w' r].
  intros pre q' e post H. cbn in H.
  destruct pre as [|ev pre]; cbn in H.
  - injection H as <- <- <-. auto.
  - injection H as _ H. destruct pre; discriminate H.
Qed.

Lemma fail_fast_load x (c : @config W) : fail_fast (load x c).
Proof. unfold load. destruct (globals c !! x); apply fail_fast_silent. Qed.

Lemma fail_fast_bind {A B} (m : @M W A) (k : A -> @M W B) :
  (forall c, fail_fast (m c)) -> (forall a c, fail_fast (k a c)) ->
  forall c, fail_fast (bind m k c).
Proof.
  intros Hm Hk c. unfold bind.
  specialize (Hm c). destruct (m c) as [[t1 c1] [a|e1]].
  2:{ intros pre q e post H. destruct (Hm pre q e post H) as [-> Heq].
      split; [reflexivity|]. cbn in *. congruence. }
  specialize (Hk a c1). destruct (k a c1) as [[t2 c2] r].
  intros pre q e post H. cbn in H.
  apply List.app_eq_app in H as [l [[-> H]|[-> H]]].
  - destruct l as [|ev l]; cbn in H.
    + apply (Hk [] q e post). cbn. by rewrite <- H.
    + injection H as <- ->.
      destruct (Hm pre q e l) as [_ Habs]; [reflexivity|discriminate Habs].
  - apply (Hk l q e post). exact H.
Qed.

Lemma fail_fast_traverse {A B} (f : A -> @M W B) l :
  Forall (fun a => forall c, fail_fast (f a c)) l ->
  forall c, fail_fast (traverse f l c).
Proof.
  induction 1 as [|a l Ha _ IH]; intros c; [apply fail_fast_silent|].
  apply (fail_fast_bind (f a)); [exact Ha|]. intros b c'.
  apply (fail_fast_bind (traverse f l)); [exact IH|]. intros bs c''.
  apply fail_fast_silent.
Qed.

Lemma fail_fast_for_each {A} (f : A -> @M W unit) l :
  Forall (fun a => forall c, fail_fast (f a c)) l ->
  forall c, fail_fast (for_each f l c).
Proof.
  induction 1 as [|a l Ha _ IH]; intros c; [apply fail_fast_silent|].
  apply (fail_fast_bind (f a)); [exact Ha|]. intros _. exact IH.
Qed.

(** Expressions have no handler: evaluation is always fail-fast. *)
Lemma fail_fast_eval e : forall c, fail_fast (eval R e c).
Proof.
  induction e as [x|s|n|m x|es IH|o a IH|f args kwargs IHf IHo IHa IHk|l op r IHl IHr]
    using expr_ind_nested; intros c; cbn [eval];
    try apply fail_fast_silent.
  - apply fail_fast_load.
  - apply fail_fast_bind; [by apply fail_fast_traverse|].
    intros; apply fail_fast_silent.
  - apply fail_fast_bind; [exact IH|]. intros; apply fail_fast_ask.
  - assert (Hargs : forall c, fail_fast (traverse (eval R) args c))
      by by apply fail_fast_traverse.
    assert (Hkw : forall c, fail_fast
        (traverse (fun kw : string * expr =>
           match kw with (k, x) => bind (eval R x) (fun v => ret (k, v)) end)
           kwargs c)).
    { apply fail_fast_traverse. eapply Forall_impl; [exact IHk|].
      intros [k x] Hx c'. apply fail_fast_bind; [exact Hx|].
      intros; apply fail_fast_silent. }
    destruct f; cbn [eval] in *;
      (apply fail_fast_bind; [first [exact IHo | exact IHf]|]; intros;
       apply fail_fast_bind; [exact Hargs|]; intros;
       apply fail_fast_bind; [exact Hkw|]; intros; apply fail_fast_ask).
  - apply fail_fast_bind; [exact IHl|]. intros.
    apply fail_fast_bind; [exact IHr|]. intros; apply fail_fast_ask.
Qed.

(** So have all statements but [try]. *)
Lemma fail_fast_exec s : is_try s = false -> forall c, fail_fast (exec R s c).
Proof.
  destruct s as [m|level m names|x e|e|e|body handler]; intros Hs c;
    try discriminate Hs; cbn [exec].
  - apply fail_fast_bind; [apply fail_fast_ask|]. intros; apply fail_fast_silent.
  - apply fail_fast_bind; [apply fail_fast_ask|]. intros mv c'.
    apply fail_fast_bind.
    + intros c''. unfold bind_submodule.
      destruct (submodule_name level m) as [x|]; [|apply fail_fast_silent].
      destruct (String.eqb x m); [apply fail_fast_silent|].
      apply fail_fast_bind; [apply fail_fast_ask|].
      intros; apply fail_fast_silent.
    + intros _. apply fail_fast_for_each. apply Forall_forall. intros x _ c''.
      apply fail_fast_bind; [apply fail_fast_ask|].
      intros; apply fail_fast_silent.
  - apply fail_fast_bind; [apply fail_fast_eval|]. intros; apply fail_fast_silent.
  - apply fail_fast_bind; [apply fail_fast_eval|]. intros; apply fail_fast_silent.
  - apply fail_fast_bind; [apply fail_fast_eval|]. intros v c'.
    destruct (truthy v); apply fail_fast_silent.
Qed.

(** A module body without [try] stops at the first exception and ends
    with it. *)
Lemma fail_fast_run prog w ns :
  has_try prog = false -> fail_fast (run R prog w ns).
Proof.
  intros Hp. unfold run. apply fail_fast_for_each.
  apply Forall_forall. intros s Hs. apply fail_fast_exec.
  destruct (is_try s) eqn:Ht; [|reflexivity].
  assert (has_try prog = true); [|congruence].
  unfold has_try, all_stmts. apply existsb_exists. exists s. split; [|exact Ht].
  apply in_flat_map. exists s. split; [by apply list_elem_of_In|].
  destruct s; left; reflexivity.
Qed.
End FailFast.

(** With a handler the exception is swallowed: the hypothesis of
    [fail_fast_run] is needed. *)
Example try_swallows :
  outcome_of (run (failing 0) [STry [SImport "robot_idl"] []] 0 ∅) = Ok tt.
Proof. reflexivity. Qed.

(** C5: neither file has an exception handler; in the test script, when the
    runtime answers a request (a remote call, or any other request) with an
    exception, that request is the last event of the run, so no later remote
    call executes, and the script ends with that same exception. *)
Theorem C5_exceptions_propagate {W} (R : W -> request -> W * result value)
    w ns pre q e post :
  trace_of (run R tests_robot w ns) = pre ++ (q, Raise e) :: post ->
  has_try corbaserver_init = false /\ has_try tests_robot = false
  /\ post = [] /\ outcome_of (run R tests_robot w ns) = Raise e.
Proof.
  intros H. split; [reflexivity|]. split; [reflexivity|].
  by apply (fail_fast_run R tests_robot w ns eq_refl pre q e post).
Qed.

Lemma C5_exceptions_propagate_witness :
  trace_of (run (failing 6) tests_robot 0 ∅) =
    before_appendJoint ++ (appendJoint_request, Raise (Raised (VRef 6))) :: []
  /\ outcome_of (run (failing 6) tests_robot 0 ∅) = Raise (Raised (VRef 6)).
Proof.
  split; [vm_compute; reflexivity|].
  apply (C5_exceptions_propagate (failing 6) 0 ∅
           before_appendJoint appendJoint_request (Raised (VRef 6)) []).
  vm_compute. reflexivity.
Defined.

(** ** The facade module *)

(** C4: when the facade body runs to its end, the global [Transform] is
    bound to the very object that the attribute path
    [common_idl._0_hpp.Transform] produced: the two attribute lookups start
    from the imported module [common_idl], and their result is stored as it
    is. *)
Theorem C4_transform_alias {W} (R : W -> request -> W * result value) w ns :
  outcome_of (run R corbaserver_init w ns) = Ok tt ->
  exists cm hpp tr pre mid post,
    trace_of (run R corbaserver_init w ns) =
      pre ++ (RImport 0 "common_idl" [], Ok cm) :: mid
          ++ (RGetAttr cm "_0_hpp", Ok hpp)
          :: (RGetAttr hpp "Transform", Ok tr) :: post
    /\ globals_of (run R corbaserver_init w ns) !! "common_idl" = Some cm
    /\ globals_of (run R corbaserver_init w ns) !! "Transform" = Some tr.
Proof.
  unfold corbaserver_init. sym_exec R; intros H; try discriminate H.
  eexists _, _, _, [_; _; _], [_; _; _; _; _; _; _], _.
  split; [reflexivity|].
  split; repeat (rewrite lookup_insert_ne by discriminate);
    apply lookup_insert_eq.
Qed.

Lemma C4_transform_alias_witness :
  outcome_of (run fresh corbaserver_init 0 ∅) = Ok tt
  /\ exists cm hpp tr pre mid post,
      trace_of (run fresh corbaserver_init 0 ∅) =
        pre ++ (RImport 0 "common_idl" [], Ok cm) :: mid
            ++ (RGetAttr cm "_0_hpp", Ok hpp)
            :: (RGetAttr hpp "Transform", Ok tr) :: post
      /\ globals_of (run fresh corbaserver_init 0 ∅) !! "common_idl" = Some cm
      /\ globals_of (run fresh corbaserver_init 0 ∅) !! "Transform" = Some tr.
Proof.
  split; [vm_compute; reflexivity|].
  apply (C4_transform_alias fresh 0 ∅). vm_compute. reflexivity.
Defined.




(** ** Registration with the ORB comes first *)

(** C8: in every execution of the facade body, whatever the runtime
    answers, an import of a stub module or a step of a re-export from a
    local submodule is preceded by the import of omniORB and the successful
    call of updateModule("hpp.corbaserver") on it, which are the first two
    events of the run. *)
Theorem C8_update_first {W} (R : W -> request -> W * result value)
    w ns pre ev post :
  trace_of (run R corbaserver_init w ns) = pre ++ ev :: post ->
  is_stub_import ev.1 || is_from_import ev.1 = true ->
  exists omni r rest,
    pre = (RImport 0 "omniORB" [], Ok omni)
          :: (RInvoke omni "updateModule" [VStr "hpp.corbaserver"] [], Ok r)
          :: rest
    /\ Exists (fun ev' => is_update ev' = true) pre.
Proof.
  unfold corbaserver_init. sym_exec R; intros H Hev;
    (destruct pre as [|e0 [|e1 pre]]; simplify_eq/=;
     try (destruct pre; discriminate)).
  all: eexists _, _, _; (split; [reflexivity|]).
  all: apply List.Exists_cons_tl, List.Exists_cons_hd; reflexivity.
Qed.

Lemma C8_update_first_witness :
  trace_of (run (failing 3) corbaserver_init 0 ∅) =
    [ (RImport 0 "omniORB" [], Ok (VRef 0));
      (RInvoke (VRef 0) "updateModule" [VStr "hpp.corbaserver"] [], Ok (VRef 1)) ]
    ++ (RImport 0 "robot_idl" [], Ok (VRef 2))
    :: [ (RImport 0 "common_idl" [], Raise (Raised (VRef 3))) ]
  /\ Exists (fun ev' => is_update ev' = true)
       [ (RImport 0 "omniORB" [], Ok (VRef 0));
         (RInvoke (VRef 0) "updateModule" [VStr "hpp.corbaserver"] [], Ok (VRef 1)) ].
Proof.
  split; [vm_compute; reflexivity|].
  destruct (C8_update_first (failing 3) 0 ∅
    [ (RImport 0 "omniORB" [], Ok (VRef 0));
      (RInvoke (VRef 0) "updateModule" [VStr "hpp.corbaserver"] [], Ok (VRef 1)) ]
    (RImport 0 "robot_idl" [], Ok (VRef 2))
    [ (RImport 0 "common_idl" [], Raise (Raised (VRef 3))) ]) as (? & ? & ? & _ & H).
  - vm_compute. reflexivity.
  - reflexivity.
  - exact H.
Defined.

(** ** The results of the remote calls are not used *)

Lemma similar_override {W} f (R : W -> request -> W * result value) :
  similar eq R (override f R).
Proof.
  intros w1 w2 q <-. unfold override.
  destruct q; destruct (R w1 _) as [w' [v|e]]; cbn; auto.
Qed.

(** Lockstep execution of one body under two similar runtimes. *)
Ltac sim_answer R1 R2 Hsim :=
  lazymatch goal with
  | Hw : _ ?w1 ?w2 |- context [ R1 ?w1 ?q ] =>
      let H := fresh "H" in
      pose proof (Hsim w1 w2 q Hw) as H; clear Hw;
      let e1 := fresh "e" in
      let v1 := fresh "v" in
      let w1' := fresh "w" in
      let e2 := fresh "e" in
      let v2 := fresh "v" in
      let w2' := fresh "w" in
      destruct (R1 w1 q) as [w1' [v1|e1]];
      destruct (R2 w2 q) as [w2' [v2|e2]];
      cbn [fst snd same_but_returns] in H; destruct H as [Hw H];
      first [ discriminate H | contradiction H
            | injection H as <- | destruct H ]
  end;
  cbv beta iota.

(** C6: the test script has no assert statement and no comparison; every
    remote call is a bare expression statement, so its value is dropped; and
    under two runtimes that differ only in what successful remote calls
    return, the script makes the same requests, ends the same way and
    leaves the same globals. *)
Theorem C6_results_discarded {W1 W2} (sim : W1 -> W2 -> Prop)
    (R1 : W1 -> request -> W1 * result value)
    (R2 : W2 -> request -> W2 * result value) w1 w2 ns :
  similar sim R1 R2 -> sim w1 w2 ->
  has_assert tests_robot = false /\ has_compare tests_robot = false
  /\ forallb discards_results (all_stmts tests_robot) = true
  /\ map fst (trace_of (run R1 tests_robot w1 ns))
     = map fst (trace_of (run R2 tests_robot w2 ns))
  /\ outcome_of (run R1 tests_robot w1 ns) = outcome_of (run R2 tests_robot w2 ns)
  /\ globals_of (run R1 tests_robot w1 ns) = globals_of (run R2 tests_robot w2 ns).
Proof.
  intros Hsim Hw. do 3 (split; [reflexivity|]). revert Hw.
  destruct (run R1 tests_robot w1 ns) as [[t1 c1] r1] eqn:E1.
  destruct (run R2 tests_robot w2 ns) as [[t2 c2] r2] eqn:E2.
  revert E1 E2. rewrite !run_eq. unfold tests_robot, cl_robot.
  intros E1 E2 Hw. revert E1 E2.
  repeat first [ sym_head | sim_answer R1 R2 Hsim ].
  all: cbn [prepend]; intros [= <- <- <-] [= <- <- <-].
  all: cbn [trace_of outcome_of globals_of fst snd globals map].
  all: auto.
Qed.

(** Replacing every returned value by [None] does change the answers the
    script receives ... *)
Example override_changes_answers :
  trace_of (run (override (fun _ => VNone) fresh) tests_robot 0 ∅) !! 4
  = Some (RInvoke (VRef 3) "createRobot" [VStr "test"] [], Ok VNone)
  /\ trace_of (run fresh tests_robot 0 ∅) !! 4
     = Some (RInvoke (VRef 3) "createRobot" [VStr "test"] [], Ok (VRef 4)).
Proof. split; vm_compute; reflexivity. Qed.

(** ... but not what the script does. *)
Lemma C6_results_discarded_witness :
  similar eq fresh (override (fun _ => VNone) fresh)
  /\ map fst (trace_of (run fresh tests_robot 0 ∅))
     = map fst (trace_of (run (override (fun _ => VNone) fresh) tests_robot 0 ∅))
  /\ globals_of (run fresh tests_robot 0 ∅)
     = globals_of (run (override (fun _ => VNone) fresh) tests_robot 0 ∅).
Proof.
  split; [apply similar_override|].
  destruct (C6_results_discarded eq fresh (override (fun _ => VNone) fresh)
              0 0 ∅ (similar_override _ _) eq_refl)
    as (_ & _ & _ & Ht & _ & Hg).
  split; [exact Ht | exact Hg].
Defined.

(** * Further properties of the two module bodies *)

(** ** Names a module body leaves alone *)

(** Induction on statements that reaches the bodies of [try]. *)
Section StmtInd.
Variable P : stmt -> Prop.
Hypothesis HImport : forall m, P (SImport m).
Hypothesis HFrom : forall level m names, P (SFromImport level m names).
Hypothesis HAssign : forall x e, P (SAssign x e).
Hypothesis HExpr : forall e, P (SExpr e).
Hypothesis HAssert : forall e, P (SAssert e).
Hypothesis HTry : forall body handler,
  Forall P body -> Forall P handler -> P (STry body handler).

Fixpoint stmt_ind_nested (s : stmt) : P s :=
  let all := fix all (l : list stmt) : Forall P l :=
    match l with
    | [] => @List.Forall_nil _ P
    | x :: l' => @List.Forall_cons _ P x l' (stmt_ind_nested x) (all l')
    end in
  match s with
  | SImport m => HImport m
  | SFromImport level m names => HFrom level m names
  | SAssign x e => HAssign x e
  | SExpr e => HExpr e
  | SAssert e => HAssert e
  | STry body handler => HTry body handler (all body) (all handler)
  end.
End StmtInd.

Section Frame.
Context {W : Type} (R : W -> request -> W * result value) (x : string).

Lemma keeps_ret {A} (a : A) : keeps x (@ret W A a).
Proof. intros c. reflexivity. Qed.

Lemma keeps_raise {A} e : keeps x (@raise W A e).
Proof. intros c. reflexivity. Qed.

Lemma keeps_ask q : keeps x (ask R q).
Proof. intros c. unfold ask. by destruct (R (world c) q). Qed.

Lemma keeps_load y : keeps x (@load W y).
Proof. intros c. unfold load. by destruct (globals c !! y). Qed.

Lemma keeps_store y v : y <> x -> keeps x (@store W y v).
Proof. intros Hy c. cbn. by apply lookup_insert_ne. Qed.

Lemma keeps_bind {A B} (m : @M W A) (k : A -> @M W B) :
  keeps x m -> (forall a, keeps x (k a)) -> keeps x (bind m k).
Proof.
  intros Hm Hk c. unfold bind. specialize (Hm c).
  destruct (m c) as [[t1 c1] [a|e]]; [|exact Hm].
  specialize (Hk a c1). destruct (k a c1) as [[t2 c2] r].
  cbn in *. congruence.
Qed.

Lemma keeps_catch {A} (m h : @M W A) :
  keeps x m -> keeps x h -> keeps x (catch m h).
Proof.
  intros Hm Hh c. unfold catch. specialize (Hm c).
  destruct (m c) as [[t1 c1] [a|e]]; [exact Hm|].
  specialize (Hh c1). destruct (h c1) as [[t2 c2] r].
  cbn in *. congruence.
Qed.

Lemma keeps_traverse {A B} (f : A -> @M W B) l :
  Forall (fun a => keeps x (f a)) l -> keeps x (traverse f l).
Proof.
  induction 1 as [|a l Ha _ IH]; [apply keeps_ret|].
  apply (keeps_bind (f a)); [exact Ha|]. intros b.
  apply (keeps_bind (traverse f l)); [exact IH|]. intros bs. apply keeps_ret.
Qed.

Lemma keeps_for_each {A} (f : A -> @M W unit) l :
  Forall (fun a => keeps x (f a)) l -> keeps x (for_each f l).
Proof.
  induction 1 as [|a l Ha _ IH]; [apply keeps_ret|].
  apply (keeps_bind (f a)); [exact Ha|]. intros _. exact IH.
Qed.

(** Evaluating an expression binds nothing. *)
Lemma keeps_eval e : keeps x (eval R e).
Proof.
  induction e as [y|s|n|m y|es IH|o a IH|f args kwargs IHf IHo IHa IHk|l op r IHl IHr]
    using expr_ind_nested; cbn [eval];
    try apply keeps_ret.
  - apply keeps_load.
  - apply keeps_bind; [by apply keeps_traverse|]. intros; apply keeps_ret.
  - apply keeps_bind; [exact IH|]. intros; apply keeps_ask.
  - assert (Hargs : keeps x (traverse (eval R) args))
      by by apply keeps_traverse.
    assert (Hkw : keeps x
        (traverse (fun kw : string * expr =>
           match kw with (k, y) => bind (eval R y) (fun v => ret (k, v)) end)
           kwargs)).
    { apply keeps_traverse. eapply Forall_impl; [exact IHk|].
      intros [k y] Hy. apply keeps_bind; [exact Hy|]. intros; apply keeps_ret. }
    destruct f; cbn [eval] in *;
      (apply keeps_bind; [first [exact IHo | exact IHf]|]; intros;
       apply keeps_bind; [exact Hargs|]; intros;
       apply keeps_bind; [exact Hkw|]; intros; apply keeps_ask).
  - apply keeps_bind; [exact IHl|]. intros.
    apply keeps_bind; [exact IHr|]. intros; apply keeps_ask.
Qed.

(** A statement changes only the names it can write. *)
Lemma keeps_exec s :
  ~ In x (flat_map written_by_stmt (stmts_of s)) -> keeps x (exec R s).
Proof.
  induction s as [m|level m names|y e|e|e|body handler IHb IHh]
    using stmt_ind_nested; intros Hx; cbn [exec].
  - apply keeps_bind; [apply keeps_ask|]. intros v. apply keeps_store.
    intros Heq. apply Hx. cbn. auto.
  - cbn in Hx. rewrite app_nil_r in Hx.
    apply keeps_bind; [apply keeps_ask|]. intros mv. apply keeps_bind.
    + unfold bind_submodule.
      destruct (submodule_name level m) as [y|]; [|apply keeps_ret].
      assert (y <> x) by (intros ->; apply Hx; left; reflexivity).
      destruct (String.eqb y m); [by apply keeps_store|].
      apply keeps_bind; [apply keeps_ask|]. intros v. by apply keeps_store.
    + intros _. apply keeps_for_each. apply Forall_forall. intros y Hy.
      apply keeps_bind; [apply keeps_ask|]. intros v. apply keeps_store.
      intros ->. apply Hx. apply list_elem_of_In in Hy.
      destruct (submodule_name level m); [right|]; exact Hy.
  - apply keeps_bind; [apply keeps_eval|]. intros v. apply keeps_store.
    intros ->. apply Hx. cbn. auto.
  - apply keeps_bind; [apply keeps_eval|]. intros; apply keeps_ret.
  - apply keeps_bind; [apply keeps_eval|]. intros v.
    destruct (truthy v); [apply keeps_ret | apply keeps_raise].
  - cbn in Hx. rewrite flat_map_app, in_app_iff in Hx.
    apply keeps_catch; apply keeps_for_each.
    + clear IHh. induction IHb as [|s body Hs _ IH]; constructor.
      * apply Hs. intros Hin. apply Hx. left. cbn.
        rewrite flat_map_app, in_app_iff. auto.
      * apply IH. intros [Hin|Hin]; apply Hx; [left|right; exact Hin].
        cbn. rewrite flat_map_app, in_app_iff. auto.
    + clear IHb. induction IHh as [|s handler Hs _ IH]; constructor.
      * apply Hs. intros Hin. apply Hx. right. cbn.
        rewrite flat_map_app, in_app_iff. auto.
      * apply IH. intros [Hin|Hin]; apply Hx; [left; exact Hin|right].
        cbn. rewrite flat_map_app, in_app_iff. auto.
Qed.

(** A module body changes only the names its statements can write, however
    the run ends. *)
Lemma keeps_run prog w ns :
  ~ In x (written_names prog) ->
  globals_of (run R prog w ns) !! x = ns !! x.
Proof.
  intros Hx. unfold run, globals_of.
  apply (keeps_for_each (exec R) prog).
  apply Forall_forall. intros s Hs. apply keeps_exec.
  intros Hin. apply Hx. unfold written_names, all_stmts.
  apply in_flat_map in Hin as (s' & Hs' & Hin).
  apply in_flat_map. exists s'. split; [|exact Hin].
  apply in_flat_map. exists s. split; [by apply list_elem_of_In|exact Hs'].
Qed.
End Frame.

(** ** The facade, in every run *)

(** X1: a request of the facade body that the runtime answers with an
    exception (a failing import, a failing updateModule, a missing
    attribute) is the last event of the run, and the import of the package
    ends with that same exception. *)
Theorem facade_fail_fast {W} (R : W -> request -> W * result value)
    w ns pre q e post :
  trace_of (run R corbaserver_init w ns) = pre ++ (q, Raise e) :: post ->
  post = [] /\ outcome_of (run R corbaserver_init w ns) = Raise e.
Proof. apply (fail_fast_run R corbaserver_init w ns eq_refl). Qed.

Lemma facade_fail_fast_witness :
  trace_of (run (failing 3) corbaserver_init 0 ∅) =
    [ (RImport 0 "omniORB" [], Ok (VRef 0));
      (RInvoke (VRef 0) "updateModule" [VStr "hpp.corbaserver"] [], Ok (VRef 1));
      (RImport 0 "robot_idl" [], Ok (VRef 2)) ]
    ++ (RImport 0 "common_idl" [], Raise (Raised (VRef 3))) :: []
  /\ outcome_of (run (failing 3) corbaserver_init 0 ∅) = Raise (Raised (VRef 3)).
Proof.
  split; [vm_compute; reflexivity|].
  eapply (facade_fail_fast (failing 3) 0 ∅
    [ (RImport 0 "omniORB" [], Ok (VRef 0));
      (RInvoke (VRef 0) "updateModule" [VStr "hpp.corbaserver"] [], Ok (VRef 1));
      (RImport 0 "robot_idl" [], Ok (VRef 2)) ]
    (RImport 0 "common_idl" []) (Raised (VRef 3)) []).
  vm_compute. reflexivity.
Defined.

(** What a complete run of the facade body looks like: every request, in
    order, and the globals it leaves, among them the four submodules. *)
Lemma corbaserver_init_success {W} (R : W -> request -> W * result value) w ns :
  outcome_of (run R corbaserver_init w ns) = Ok tt ->
  exists omni u ri ci oi pi si mc c mr r hpp tr mp ps np lp mb b,
    trace_of (run R corbaserver_init w ns) =
      [ (RImport 0 "omniORB" [], Ok omni);
        (RInvoke omni "updateModule" [VStr "hpp.corbaserver"] [], Ok u);
        (RImport 0 "robot_idl" [], Ok ri);
        (RImport 0 "common_idl" [], Ok ci);
        (RImport 0 "obstacle_idl" [], Ok oi);
        (RImport 0 "problem_idl" [], Ok pi);
        (RImport 0 "server_idl_idl" [], Ok si);
        (RImport 1 "client" ["Client"], Ok mc);
        (RImportFrom mc "Client", Ok c);
        (RImport 1 "robot" ["Robot"], Ok mr);
        (RImportFrom mr "Robot", Ok r);
        (RGetAttr ci "_0_hpp", Ok hpp);
        (RGetAttr hpp "Transform", Ok tr);
        (RImport 1 "problem_solver"
           ["ProblemSolver"; "newProblem"; "loadServerPlugin"], Ok mp);
        (RImportFrom mp "ProblemSolver", Ok ps);
        (RImportFrom mp "newProblem", Ok np);
        (RImportFrom mp "loadServerPlugin", Ok lp);
        (RImport 1 "benchmark" ["Benchmark"], Ok mb);
        (RImportFrom mb "Benchmark", Ok b) ]
    /\ globals_of (run R corbaserver_init w ns) =
         <["Benchmark":=b]> (<["benchmark":=mb]>
         (<["loadServerPlugin":=lp]> (<["newProblem":=np]>
         (<["ProblemSolver":=ps]> (<["problem_solver":=mp]>
         (<["Transform":=tr]>
         (<["Robot":=r]> (<["robot":=mr]>
         (<["Client":=c]> (<["client":=mc]>
         (<["server_idl_idl":=si]> (<["problem_idl":=pi]>
         (<["obstacle_idl":=oi]> (<["common_idl":=ci]> (<["robot_idl":=ri]>
         (<["omniORB":=omni]> ns)))))))))))))))).
Proof.
  unfold corbaserver_init. sym_exec R; intros H; try discriminate H.
  repeat eexists.
Qed.

(** X2: a complete run of the facade body makes exactly these nineteen
    requests, all answered with a value: omniORB, the registration, the five
    stubs in the order written, then for each local submodule the import of
    the submodule followed by one fetch per re-exported name, with the two
    attribute lookups for Transform between [robot] and [problem_solver];
    and each re-exported name ends up bound to the object fetched for it. *)
Theorem facade_trace {W} (R : W -> request -> W * result value) w ns :
  outcome_of (run R corbaserver_init w ns) = Ok tt ->
  exists omni u ri ci oi pi si mc c mr r hpp tr mp ps np lp mb b,
    trace_of (run R corbaserver_init w ns) =
      [ (RImport 0 "omniORB" [], Ok omni);
        (RInvoke omni "updateModule" [VStr "hpp.corbaserver"] [], Ok u);
        (RImport 0 "robot_idl" [], Ok ri);
        (RImport 0 "common_idl" [], Ok ci);
        (RImport 0 "obstacle_idl" [], Ok oi);
        (RImport 0 "problem_idl" [], Ok pi);
        (RImport 0 "server_idl_idl" [], Ok si);
        (RImport 1 "client" ["Client"], Ok mc);
        (RImportFrom mc "Client", Ok c);
        (RImport 1 "robot" ["Robot"], Ok mr);
        (RImportFrom mr "Robot", Ok r);
        (RGetAttr ci "_0_hpp", Ok hpp);
        (RGetAttr hpp "Transform", Ok tr);
        (RImport 1 "problem_solver"
           ["ProblemSolver"; "newProblem"; "loadServerPlugin"], Ok mp);
        (RImportFrom mp "ProblemSolver", Ok ps);
        (RImportFrom mp "newProblem", Ok np);
        (RImportFrom mp "loadServerPlugin", Ok lp);
        (RImport 1 "benchmark" ["Benchmark"], Ok mb);
        (RImportFrom mb "Benchmark", Ok b) ]
    /\ map (fun x => globals_of (run R corbaserver_init w ns) !! x)
           ["Client"; "Robot"; "ProblemSolver"; "newProblem";
            "loadServerPlugin"; "Benchmark"]
       = [Some c; Some r; Some ps; Some np; Some lp; Some b].
Proof.
  intros H.
  destruct (corbaserver_init_success R w ns H)
    as (omni & u & ri & ci & oi & pi & si & mc & c & mr & r & hpp & tr & mp
        & ps & np & lp & mb & b & Ht & Hg).
  exists omni, u, ri, ci, oi, pi, si, mc, c, mr, r, hpp, tr, mp, ps, np, lp, mb, b.
  split; [exact Ht|]. rewrite Hg. cbn [map].
  repeat (apply (f_equal2 cons);
          [ repeat (rewrite lookup_insert_ne by discriminate);
            apply lookup_insert_eq | ]).
  reflexivity.
Qed.

Lemma facade_trace_witness :
  outcome_of (run fresh corbaserver_init 0 ∅) = Ok tt
  /\ exists c r ps np lp b,
      map (fun x => globals_of (run fresh corbaserver_init 0 ∅) !! x)
          ["Client"; "Robot"; "ProblemSolver"; "newProblem";
           "loadServerPlugin"; "Benchmark"]
      = [Some c; Some r; Some ps; Some np; Some lp; Some b].
Proof.
  split; [vm_compute; reflexivity|].
  destruct (facade_trace fresh 0 ∅)
    as (omni & u & ri & ci & oi & pi & si & mc & c & mr & r & hpp & tr & mp
        & ps & np & lp & mb & b & Ht & Hg).
  - vm_compute. reflexivity.
  - exists c, r, ps, np, lp, b. exact Hg.
Defined.



(** X4: whatever the runtime answers and however the run ends, the test
    script touches no global other than Client, cl, Robot and robot. *)
Theorem script_binds_only_its_names {W} (R : W -> request -> W * result value)
    w ns x :
  x ∉ script_names ->
  globals_of (run R tests_robot w ns) !! x = ns !! x.
Proof.
  intros Hx. apply keeps_run. intros Hin. apply Hx.
  apply list_elem_of_In. exact Hin.
Qed.

Lemma script_binds_only_its_names_witness :
  globals_of (run (failing 6) tests_robot 0 {["Transform" := VInt 7]})
    !! "Transform" = Some (VInt 7).
Proof.
  rewrite (script_binds_only_its_names (failing 6) 0 {["Transform" := VInt 7]}
             "Transform").
  - vm_compute. reflexivity.
  - unfold script_names. intros H.
    repeat (apply elem_of_cons in H as [H|H]; [discriminate H|]).
    inversion H.
Defined.

(** ** The test script, in every run *)

(** X5: after a complete run of the test script, [Client] is the object
    fetched from the module that the import of hpp.corbaserver returned,
    [Robot] the object fetched from the module that the import of
    hpp.corbaserver.robot returned, [cl] is what the call of [Client]
    returned and [robot] what the call of [Robot] returned; the other
    globals are as before. *)
Theorem script_final_globals {W} (R : W -> request -> W * result value) w ns :
  outcome_of (run R tests_robot w ns) = Ok tt ->
  exists m0 vClient cl m1 vRobot robot,
    (RImport 0 "hpp.corbaserver" ["Client"], Ok m0)
      ∈ trace_of (run R tests_robot w ns)
    /\ (RImportFrom m0 "Client", Ok vClient) ∈ trace_of (run R tests_robot w ns)
    /\ (RCall vClient [] [], Ok cl) ∈ trace_of (run R tests_robot w ns)
    /\ (RImport 0 "hpp.corbaserver.robot" ["Robot"], Ok m1)
      ∈ trace_of (run R tests_robot w ns)
    /\ (RImportFrom m1 "Robot", Ok vRobot) ∈ trace_of (run R tests_robot w ns)
    /\ (RCall vRobot [] [], Ok robot) ∈ trace_of (run R tests_robot w ns)
    /\ globals_of (run R tests_robot w ns) =
         <["robot":=robot]> (<["Robot":=vRobot]> (<["cl":=cl]>
         (<["Client":=vClient]> ns))).
Proof.
  unfold tests_robot, cl_robot. sym_exec R; intros H; try discriminate H.
  eexists _, _, _, _, _, _.
  do 6 (split;
        [ repeat first [ apply list_elem_of_here | apply list_elem_of_further ]
        | ]).
  reflexivity.
Qed.

Lemma script_final_globals_witness :
  outcome_of (run fresh tests_robot 0 ∅) = Ok tt
  /\ exists vClient cl vRobot robot,
       globals_of (run fresh tests_robot 0 ∅) =
         <["robot":=robot]> (<["Robot":=vRobot]> (<["cl":=cl]>
         (<["Client":=vClient]> ∅))).
Proof.
  split; [vm_compute; reflexivity|].
  destruct (script_final_globals fresh 0 ∅)
    as (m0 & vClient & cl & m1 & vRobot & robot & _ & _ & _ & _ & _ & _ & Hg).
  - vm_compute. reflexivity.
  - exists vClient, cl, vRobot, robot. exact Hg.
Defined.

(** A trace whose last event is an exception. *)
Lemma ends_with_raise (t : list event) q e :
  last t = Some (q, Raise e) -> exists pre q', t = pre ++ [(q', Raise e)].
Proof. intros [pre ->]%last_Some. eauto. Qed.

(** X6: the test script fails only when the runtime does: every name it
    reads was bound by an earlier statement, so a run that ends with an
    exception ends with the exception the runtime gave to the last request,
    and in that case [robot] is not bound by the run. *)
Theorem script_raises_only_what_runtime_raises {W}
    (R : W -> request -> W * result value) w ns e :
  outcome_of (run R tests_robot w ns) = Raise e ->
  (exists pre q, trace_of (run R tests_robot w ns) = pre ++ [(q, Raise e)])
  /\ globals_of (run R tests_robot w ns) !! "robot" = ns !! "robot".
Proof.
  unfold tests_robot, cl_robot. sym_exec R; intros H; try discriminate H.
  all: injection H as <-.
  all: split;
    [ eapply ends_with_raise; reflexivity
    | repeat (rewrite lookup_insert_ne by discriminate); reflexivity ].
Qed.

Lemma script_raises_only_what_runtime_raises_witness :
  outcome_of (run (failing 6) tests_robot 0 ∅) = Raise (Raised (VRef 6))
  /\ globals_of (run (failing 6) tests_robot 0 ∅) !! "robot" = None.
Proof.
  split; [vm_compute; reflexivity|].
  destruct (script_raises_only_what_runtime_raises (failing 6) 0 ∅
              (Raised (VRef 6))) as [_ Hg].
  - vm_compute. reflexivity.
  - rewrite Hg. reflexivity.
Defined.

(** ** The facade, when it fails *)

(** X7: the facade body too fails only when the runtime does: it reads
    [omniORB] and [common_idl] after importing them, so a run that ends with
    an exception ends with the exception given to its last request; and in
    that case [Benchmark], the last name bound, is not bound by the run. *)
Theorem facade_raises_only_what_runtime_raises {W}
    (R : W -> request -> W * result value) w ns e :
  outcome_of (run R corbaserver_init w ns) = Raise e ->
  (exists pre q, trace_of (run R corbaserver_init w ns) = pre ++ [(q, Raise e)])
  /\ globals_of (run R corbaserver_init w ns) !! "Benchmark" = ns !! "Benchmark".
Proof.
  unfold corbaserver_init. sym_exec R; intros H; try discriminate H.
  all: injection H as <-.
  all: split;
    [ eapply ends_with_raise; reflexivity
    | repeat (rewrite lookup_insert_ne by discriminate); reflexivity ].
Qed.

Lemma facade_raises_only_what_runtime_raises_witness :
  outcome_of (run (failing 18) corbaserver_init 0 ∅) = Raise (Raised (VRef 18))
  /\ globals_of (run (failing 18) corbaserver_init 0 ∅) !! "Benchmark" = None.
Proof.
  split; [vm_compute; reflexivity|].
  destruct (facade_raises_only_what_runtime_raises (failing 18) 0 ∅
              (Raised (VRef 18))) as [_ Hg].
  - vm_compute. reflexivity.
  - rewrite Hg. reflexivity.
Defined.

(** X8: in every run of the facade body, also one that fails later, the
    global [Transform] is either left as it was, and then no lookup of the
    attribute [Transform] has succeeded, or it holds the object that the
    lookups [_0_hpp] and [Transform] produced, one right after the other. *)
Theorem transform_alias_in_every_run {W}
    (R : W -> request -> W * result value) w ns :
  (globals_of (run R corbaserver_init w ns) !! "Transform" = ns !! "Transform"
   /\ forall hpp tr,
        (RGetAttr hpp "Transform", Ok tr) ∉ trace_of (run R corbaserver_init w ns))
  \/ (exists cm hpp tr pre post,
        trace_of (run R corbaserver_init w ns) =
          pre ++ (RGetAttr cm "_0_hpp", Ok hpp)
              :: (RGetAttr hpp "Transform", Ok tr) :: post
        /\ globals_of (run R corbaserver_init w ns) !! "Transform" = Some tr).
Proof.
  unfold corbaserver_init. sym_exec R.
  all: first
    [ left; split;
      [ repeat (rewrite lookup_insert_ne by discriminate); reflexivity
      | intros hpp tr Hin;
        repeat (apply elem_of_cons in Hin as [Hin|Hin]; [discriminate Hin|]);
        inversion Hin ]
    | right; eexists _, _, _, [_; _; _; _; _; _; _; _; _; _; _], _;
      split; [reflexivity|];
      repeat (rewrite lookup_insert_ne by discriminate);
      apply lookup_insert_eq ].
Qed.

(** ** Order of the script's steps in every run *)

(** X9: in every run of the test script, the script's own import statement
    for hpp.corbaserver.robot is reached only after all five remote calls:
    when the script makes that request, every earlier event of the script
    has succeeded, the five remote calls are among them, and no remote call
    follows. *)
Theorem robot_import_after_remote_calls {W}
    (R : W -> request -> W * result value) w ns :
  existsb (fun ev => is_robot_import ev.1) (trace_of (run R tests_robot w ns))
    = true ->
  exists pre ev post,
    trace_of (run R tests_robot w ns) = pre ++ ev :: post
    /\ is_robot_import ev.1 = true
    /\ invocations pre = remote_methods
    /\ forallb is_ok pre = true
    /\ invocations (ev :: post) = [].
Proof.
  unfold tests_robot, cl_robot. sym_exec R; intros H;
    cbn in H; try discriminate H.
  all: eexists [_; _; _; _; _; _; _; _; _; _; _; _; _], _, _;
    split; [reflexivity|]; repeat split.
Qed.

Lemma robot_import_after_remote_calls_witness :
  existsb (fun ev => is_robot_import ev.1)
    (trace_of (run (failing 14) tests_robot 0 ∅)) = true
  /\ exists pre ev post,
       trace_of (run (failing 14) tests_robot 0 ∅) = pre ++ ev :: post
       /\ is_robot_import ev.1 = true
       /\ invocations pre = remote_methods
       /\ forallb is_ok pre = true
       /\ invocations (ev :: post) = [].
Proof.
  split; [vm_compute; reflexivity|].
  apply (robot_import_after_remote_calls (failing 14) 0 ∅).
  vm_compute. reflexivity.
Defined.

(** ** The value of updateModule is not used *)

(** X10: the facade calls updateModule as a bare statement: under two
    runtimes that differ only in what successful method calls return, the
    facade body makes the same requests, ends the same way and leaves the
    same globals. *)
Theorem facade_ignores_update_result {W1 W2} (sim : W1 -> W2 -> Prop)
    (R1 : W1 -> request -> W1 * result value)
    (R2 : W2 -> request -> W2 * result value) w1 w2 ns :
  similar sim R1 R2 -> sim w1 w2 ->
  forallb discards_results (all_stmts corbaserver_init) = true
  /\ map fst (trace_of (run R1 corbaserver_init w1 ns))
     = map fst (trace_of (run R2 corbaserver_init w2 ns))
  /\ outcome_of (run R1 corbaserver_init w1 ns)
     = outcome_of (run R2 corbaserver_init w2 ns)
  /\ globals_of (run R1 corbaserver_init w1 ns)
     = globals_of (run R2 corbaserver_init w2 ns).
Proof.
  intros Hsim Hw. split; [reflexivity|]. revert Hw.
  destruct (run R1 corbaserver_init w1 ns) as [[t1 c1] r1] eqn:E1.
  destruct (run R2 corbaserver_init w2 ns) as [[t2 c2] r2] eqn:E2.
  revert E1 E2. rewrite !run_eq. unfold corbaserver_init.
  intros E1 E2 Hw. revert E1 E2.
  repeat first [ sym_head | sim_answer R1 R2 Hsim ].
  all: cbn [prepend]; intros [= <- <- <-] [= <- <- <-].
  all: cbn [trace_of outcome_of globals_of fst snd globals map].
  all: auto.
Qed.

Lemma facade_ignores_update_result_witness :
  similar eq fresh (override (fun _ => VNone) fresh)
  /\ globals_of (run fresh corbaserver_init 0 ∅)
     = globals_of (run (override (fun _ => VNone) fresh) corbaserver_init 0 ∅).
Proof.
  split; [apply similar_override|].
  apply (facade_ignores_update_result eq fresh (override (fun _ => VNone) fresh)
           0 0 ∅ (similar_override _ _) eq_refl).
Defined.

(** ** The test script run against the facade *)

Lemma trace_of_prepend {W A} ev (x : list event * @config W * result A) :
  trace_of (prepend ev x) = ev :: trace_of x.
Proof. destruct x as [[t c] r]. reflexivity. Qed.

Lemma linked_first_import {W} (R : W -> request -> W * result value)
    pkg ns0 w fromlist :
  linked R pkg ns0 (w, None) (RImport 0 "hpp.corbaserver" fromlist) =
  match outcome_of (run R corbaserver_init w ns0) with
  | Ok _ =>
      ((world (run R corbaserver_init w ns0).1.2,
        Some (globals_of (run R corbaserver_init w ns0))), Ok (VRef pkg))
  | Raise e => ((world (run R corbaserver_init w ns0).1.2, None), Raise e)
  end.
Proof.
  unfold linked. cbn [String.eqb Ascii.eqb Bool.eqb fst snd].
  by destruct (run R corbaserver_init w ns0) as [[t c] [[]|e]].
Qed.

Lemma linked_fetch {W} (R : W -> request -> W * result value)
    pkg ns0 w g x v :
  g !! x = Some v ->
  linked R pkg ns0 (w, Some g) (RImportFrom (VRef pkg) x) = ((w, Some g), Ok v).
Proof. intros Hx. unfold linked. cbn [fst snd]. by rewrite Nat.eqb_refl, Hx. Qed.

(** X11: when the facade body raises, the test script stops at its first
    statement with that exception: its only event is the failed import of
    hpp.corbaserver, no remote call is made and nothing is bound. *)
Theorem script_fails_when_facade_fails {W}
    (R : W -> request -> W * result value) pkg ns0 w ns e :
  outcome_of (run R corbaserver_init w ns0) = Raise e ->
  trace_of (run (linked R pkg ns0) tests_robot (w, None) ns)
    = [(RImport 0 "hpp.corbaserver" ["Client"], Raise e)]
  /\ outcome_of (run (linked R pkg ns0) tests_robot (w, None) ns) = Raise e
  /\ invocations (trace_of (run (linked R pkg ns0) tests_robot (w, None) ns)) = []
  /\ globals_of (run (linked R pkg ns0) tests_robot (w, None) ns) = ns.
Proof.
  intros He. rewrite run_eq. unfold tests_robot.
  do 4 sym_head. rewrite linked_first_import, He. repeat split.
Qed.

Lemma script_fails_when_facade_fails_witness :
  outcome_of (run (failing 3) corbaserver_init 0 ∅) = Raise (Raised (VRef 3))
  /\ trace_of (run (linked (failing 3) 100 ∅) tests_robot (0, None) ∅)
     = [(RImport 0 "hpp.corbaserver" ["Client"], Raise (Raised (VRef 3)))].
Proof.
  split; [vm_compute; reflexivity|].
  apply (script_fails_when_facade_fails (failing 3) 100 ∅ 0 ∅ (Raised (VRef 3))).
  vm_compute. reflexivity.
Defined.

(** X12: when the facade body ends normally, the script's first three
    events are the import of the package, the fetch of [Client] from it, and
    the call of the class so obtained; and that class is the very object the
    facade fetched from its [client] submodule. *)
Theorem script_uses_facade_client {W}
    (R : W -> request -> W * result value) pkg ns0 w ns :
  outcome_of (run R corbaserver_init w ns0) = Ok tt ->
  exists mc c r rest,
    (RImport 1 "client" ["Client"], Ok mc)
      ∈ trace_of (run R corbaserver_init w ns0)
    /\ (RImportFrom mc "Client", Ok c) ∈ trace_of (run R corbaserver_init w ns0)
    /\ trace_of (run (linked R pkg ns0) tests_robot (w, None) ns)
       = (RImport 0 "hpp.corbaserver" ["Client"], Ok (VRef pkg))
         :: (RImportFrom (VRef pkg) "Client", Ok c)
         :: (RCall c [] [], r) :: rest.
Proof.
  intros Hok.
  destruct (corbaserver_init_success R w ns0 Hok)
    as (omni & u & ri & ci & oi & pi & si & mc & c & mr & r & hpp & tr & mp
        & ps & np & lp & mb & b & Ht & Hg).
  assert (Hc : globals_of (run R corbaserver_init w ns0) !! "Client" = Some c).
  { rewrite Hg. repeat (rewrite lookup_insert_ne by discriminate).
    apply lookup_insert_eq. }
  exists mc, c. rewrite Ht.
  rewrite run_eq. unfold tests_robot.
  do 4 sym_head. rewrite linked_first_import, Hok.
  repeat sym_head.
  rewrite (linked_fetch R pkg ns0 _ _ "Client" c Hc).
  repeat sym_head.
  destruct (linked R pkg ns0 _ (RCall c [] [])) as [st [v|e]].
  - eexists (Ok v), _. split; [|split].
    + repeat first [ apply list_elem_of_here | apply list_elem_of_further ].
    + repeat first [ apply list_elem_of_here | apply list_elem_of_further ].
    + rewrite !trace_of_prepend. reflexivity.
  - eexists (Raise e), _. split; [|split].
    + repeat first [ apply list_elem_of_here | apply list_elem_of_further ].
    + repeat first [ apply list_elem_of_here | apply list_elem_of_further ].
    + rewrite !trace_of_prepend. reflexivity.
Qed.

Lemma script_uses_facade_client_witness :
  outcome_of (run fresh corbaserver_init 0 ∅) = Ok tt
  /\ exists c r rest,
       trace_of (run (linked fresh 100 ∅) tests_robot (0, None) ∅)
       = (RImport 0 "hpp.corbaserver" ["Client"], Ok (VRef 100))
         :: (RImportFrom (VRef 100) "Client", Ok c)
         :: (RCall c [] [], r) :: rest.
Proof.
  split; [vm_compute; reflexivity|].
  destruct (script_uses_facade_client fresh 100 ∅ 0 ∅)
    as (mc & c & r & rest & _ & _ & Ht).
  - vm_compute. reflexivity.
  - exists c, r, rest. exact Ht.
Defined.

(** ** The remote calls of every run *)

